(** * The chat session controller of ai-task-assistant

    A shallow embedding of the frontend's conversation core:
    - [types/message.ts]: the transcript's [Message];
    - [lib/api-client.ts]: [ChatAPIClient.sendMessage], the transport with
      its abort timer;
    - [hooks/use-chat.ts]: [useChat], the hook that owns the log, the
      loading flag and the last error;
    - [components/chat/]: what [Chat], [ChatInput], [ChatWelcome] and
      [ChatMessage] decide from the hook's cells, and the calls they make
      into the hook.

    React state is passed explicitly; an [async] function is cut at its
    [await]: what runs up to the suspension, and what runs when the awaited
    promise settles.  Values the platform hands out ([crypto.randomUUID()],
    the clock, the network's behaviour) are arguments. *)

From Stdlib Require Import NArith ZArith Lia Bool DecimalString.
From stdpp Require Import base list strings.

Open Scope string_scope.
Open Scope list_scope.

(** ** JavaScript values the code handles *)

(** What a [throw] or a rejected promise carries.  [Error], [TypeError] and
    [SyntaxError] objects are [ErrorObject]s told apart by [name]; a
    [DOMException] also inherits from [Error.prototype]. *)
Inductive Thrown :=
| ErrorObject (name message : string)
| DOMExceptionObject (name message : string)
| OtherValue (text : string).

Definition instanceof_Error (e : Thrown) : bool :=
  match e with
  | ErrorObject _ _ | DOMExceptionObject _ _ => true
  | OtherValue _ => false
  end.

Definition instanceof_DOMException (e : Thrown) : bool :=
  match e with
  | DOMExceptionObject _ _ => true
  | _ => false
  end.

(** [err.name] and [err.message]; both are read only behind an
    [instanceof] test, a value that has neither reads as the empty text. *)
Definition name (e : Thrown) : string :=
  match e with
  | ErrorObject n _ | DOMExceptionObject n _ => n
  | OtherValue _ => ""
  end.

Definition message (e : Thrown) : string :=
  match e with
  | ErrorObject _ m | DOMExceptionObject _ m => m
  | OtherValue _ => ""
  end.

(** [new Error(msg)] *)
Definition new_Error (msg : string) : Thrown := ErrorObject "Error" msg.

(** A promise that has settled. *)
Inductive Settled (A : Type) :=
| Fulfilled (a : A)
| Rejected (e : Thrown).
Arguments Fulfilled {A} a.
Arguments Rejected {A} e.

(** A [Date] is kept as the construction that made it: [new Date()] reads
    the clock, [new Date(s)] parses the text [s]. *)
Inductive Date :=
| DateNow (clock : Z)
| DateOf (s : string).

(** The value [JSON.parse] builds.  A number is kept as its [ToString]
    rendering, which is ["0"] for the two zeros and for no other number; an
    object lists its own properties, one entry per key. *)
#[local] Unset Elimination Schemes.
Inductive json :=
| JNull
| JBool (b : bool)
| JNumber (text : string)
| JString (s : string)
| JArray (items : list json)
| JObject (fields : list (string * json)).
#[local] Set Elimination Schemes.

(** Reading [v.detail]. *)
Inductive PropertyRead :=
| ReadThrows (e : Thrown)
| ReadUndefined
| ReadValue (v : json).

Fixpoint own_property (key : string) (fields : list (string * json)) : option json :=
  match fields with
  | [] => None
  | (k, v) :: rest => if String.eqb k key then Some v else own_property key rest
  end.

(** The text of the [TypeError] for a property read on [null] is the
    engine's; this is V8's. *)
Definition null_read_message (key : string) : string :=
  "Cannot read properties of null (reading '" +:+ key +:+ "')".

Definition get_property (v : json) (key : string) : PropertyRead :=
  match v with
  | JNull => ReadThrows (ErrorObject "TypeError" (null_read_message key))
  | JObject fields =>
      match own_property key fields with
      | Some d => ReadValue d
      | None => ReadUndefined
      end
  | _ => ReadUndefined
  end.

(** [ToBoolean] *)
Definition truthy (v : json) : bool :=
  match v with
  | JNull => false
  | JBool b => b
  | JNumber text => negb (String.eqb text "0")
  | JString s => negb (String.eqb s "")
  | JArray _ | JObject _ => true
  end.

Fixpoint join (sep : string) (parts : list string) : string :=
  match parts with
  | [] => ""
  | [p] => p
  | p :: rest => p +:+ sep +:+ join sep rest
  end.

(** [ToString]: an array joins its elements with commas, [null] elements
    as the empty text; a plain object is ["[object Object]"]. *)
Fixpoint ToString (v : json) : string :=
  match v with
  | JNull => "null"
  | JBool true => "true"
  | JBool false => "false"
  | JNumber text => text
  | JString s => s
  | JArray items =>
      join "," ((fix elements (l : list json) : list string :=
                   match l with
                   | [] => []
                   | JNull :: rest => "" :: elements rest
                   | x :: rest => ToString x :: elements rest
                   end) items)
  | JObject _ => "[object Object]"
  end.

(** [`${n}`] for an integer [n] *)
Definition Number_toString (n : N) : string :=
  NilZero.string_of_uint (N.to_uint n).

(** ** types/message.ts *)

Inductive MessageRole := user | assistant.

Inductive MessageType := text.

Module Source.
Record t := { id : string; source : string; title : string }.
End Source.
Definition Source := Source.t.

Module Message.
Record t := {
  id : string;
  role : MessageRole;
  type : MessageType;
  content : string;
  timestamp : Date;
  sources : option (list Source);
  cached : option bool
}.
End Message.
Definition Message := Message.t.

(** ** lib/api-client.ts: the interfaces *)

Module HistoryEntry.
Record t := { role : MessageRole; content : string }.
End HistoryEntry.
Definition HistoryEntry := HistoryEntry.t.

Module ChatRequest.
Record t := { message : string; chat_history : option (list HistoryEntry) }.
End ChatRequest.
Definition ChatRequest := ChatRequest.t.

Module ChatResponse.
Record t := {
  response : string;
  sources : list Source;
  cached : bool;
  timestamp : string
}.
End ChatResponse.
Definition ChatResponse := ChatResponse.t.

(** ** The network, as one call meets it

    Times are milliseconds counted from the start of the call.  A [Response]
    is what [fetch] resolves with once the status line and headers are in;
    its body follows [body_after] milliseconds later, or never. *)

Inductive JsonBody :=
| Parses (v : json)
| ParseFails (why : string).

Record Response := {
  status : N;
  body_after : option N;
  body : JsonBody
}.

(** [response.ok] *)
Definition ok (r : Response) : bool :=
  ((200 <=? status r) && (status r <=? 299))%N.

Inductive Network :=
| Responds (after : N) (response : Response)
| NetworkError (after : N) (why : string)
| NoAnswer.

(** A promise as the event loop will see it: settling at some time with a
    value or a rejection, or never settling on its own. *)
Definition Pending (A : Type) : Type := option (N * Settled A).

(** [fetch(url, { ..., signal })], left alone *)
Definition fetch (net : Network) : Pending Response :=
  match net with
  | Responds after response => Some (after, Fulfilled response)
  | NetworkError after why => Some (after, Rejected (ErrorObject "TypeError" why))
  | NoAnswer => None
  end.

(** [response.json()], called at [now] and left alone *)
Definition Response_json (now : N) (r : Response) : Pending json :=
  match body_after r with
  | None => None
  | Some d =>
      Some ((now + d)%N,
            match body r with
            | Parses v => Fulfilled v
            | ParseFails why => Rejected (ErrorObject "SyntaxError" why)
            end)
  end.

(** ** lib/api-client.ts: [ChatAPIClient.sendMessage] *)

Module ChatAPIClient.

(** [setTimeout(() => controller.abort(), 30000)] *)
Definition TIMEOUT_MS : N := 30000.

(** What [controller.abort()] makes the fetch, or the reading of its body,
    reject with. *)
Definition AbortError : Thrown :=
  DOMExceptionObject "AbortError" "signal is aborted without reason".

(** An [await] inside the [try], while the timer is armed. *)
Record Awaited (A : Type) := {
  resumed_at : N;
  aborted : bool;
  outcome : Settled A
}.
Arguments resumed_at {A} _.
Arguments aborted {A} _.
Arguments outcome {A} _.

(** The awaited promise settles on its own if it does so before the timer
    fires; otherwise the timer's callback aborts the controller and the
    promise rejects with [AbortError].  A promise due at the very instant
    of the deadline is taken to lose to the timer. *)
Definition await_with_signal {A : Type} (p : Pending A) : Awaited A :=
  match p with
  | Some (t, s) =>
      if (t <? TIMEOUT_MS)%N
      then {| resumed_at := t; aborted := false; outcome := s |}
      else {| resumed_at := TIMEOUT_MS; aborted := true; outcome := Rejected AbortError |}
  | None => {| resumed_at := TIMEOUT_MS; aborted := true; outcome := Rejected AbortError |}
  end.

(** How the [try] block is left. *)
Inductive TryExit :=
| Return_json (r : Response)
| Throw (e : Thrown).

(** One call, as observed from outside: the body handed to [fetch], whether
    the controller was aborted, when the [finally] cleared the timer, and
    the promise the caller holds. *)
Record Call := {
  request : ChatRequest;
  cancelled : bool;
  cleared_at : N;
  promise : Pending json
}.

(** [sendMessage], lines 39-66.  The [await]s of lines 43 and 54 are inside
    the [try], under the timer; [return response.json()] on line 58 hands
    the promise of the body to the caller without awaiting it, so the
    [finally] clears the timer first and the body of a success is read with
    the timer gone.  The promise is declared [Promise<ChatResponse>]: what
    the body parses to is handed over unchecked. *)
Definition sendMessage (message : string) (chatHistory : option (list HistoryEntry))
    (net : Network) : Call :=
  let request_body :=
    {| ChatRequest.message := message; ChatRequest.chat_history := chatHistory |} in
  (* try *)
  let fetched := await_with_signal (fetch net) in
  let '(exit, now, cancelled_) :=
    match outcome fetched with
    | Rejected e => (Throw e, resumed_at fetched, aborted fetched)
    | Fulfilled response =>
        if negb (ok response) then
          let parsed := await_with_signal (Response_json (resumed_at fetched) response) in
          let err :=
            match outcome parsed with
            | Fulfilled v => v
            | Rejected _ =>
                JObject [("detail", JString ("HTTP " +:+ Number_toString (status response)))]
            end in
          let generic := "API error: " +:+ Number_toString (status response) in
          (match get_property err "detail" with
           | ReadThrows e => Throw e
           | ReadUndefined => Throw (new_Error generic)
           | ReadValue d => Throw (new_Error (if truthy d then ToString d else generic))
           end, resumed_at parsed, aborted parsed)
        else (Return_json response, resumed_at fetched, false)
    end in
  (* catch, then finally: clearTimeout(timeoutId) *)
  let settles :=
    match exit with
    | Return_json response => Response_json now response
    | Throw err =>
        if instanceof_DOMException err && String.eqb (name err) "AbortError"
        then Some (now, Rejected (new_Error "Request timed out. Please try again."))
        else Some (now, Rejected err)
    end in
  {| request := request_body; cancelled := cancelled_; cleared_at := now; promise := settles |}.

End ChatAPIClient.

(** ** hooks/use-chat.ts *)

Module useChat.

(** The three [useState] cells. *)
Record State := {
  messages : list Message;
  isLoading : bool;
  error : option string
}.

(** [useState([])], [useState(false)], [useState(null)] *)
Definition initial : State :=
  {| messages := []; isLoading := false; error := None |}.

(** Code of the hook: it updates the cells and completes normally or
    throws. *)
Inductive Completion (A : Type) :=
| Normal (a : A)
| Throws (e : Thrown).
Arguments Normal {A} a.
Arguments Throws {A} e.

Definition Hook (A : Type) : Type := State -> Completion A * State.

#[export] Instance Hook_ret : MRet Hook := fun A a st => (Normal a, st).

#[export] Instance Hook_bind : MBind Hook := fun A B k m st =>
  match m st with
  | (Normal a, st') => k a st'
  | (Throws e, st') => (Throws e, st')
  end.

(** [await p] for a promise that has settled *)
Definition await {A : Type} (p : Settled A) : Hook A := fun st =>
  match p with
  | Fulfilled a => (Normal a, st)
  | Rejected e => (Throws e, st)
  end.

(** [try { body } catch (err) { handler } finally { final }] *)
Definition try_catch_finally {A : Type}
    (body : Hook A) (handler : Thrown -> Hook A) (final : Hook unit) : Hook A := fun st =>
  let '(c, st1) :=
    match body st with
    | (Throws err, st') => handler err st'
    | done => done
    end in
  match final st1 with
  | (Normal _, st2) => (c, st2)
  | (Throws e, st2) => (Throws e, st2)
  end.

(** The setters.  [setMessages] is always given an updater or a constant;
    updates apply in the order they are queued, each to the value the
    previous one left. *)
Definition setMessages (update : list Message -> list Message) : Hook unit := fun st =>
  (Normal (), {| messages := update (messages st); isLoading := isLoading st; error := error st |}).

Definition setIsLoading (b : bool) : Hook unit := fun st =>
  (Normal (), {| messages := messages st; isLoading := b; error := error st |}).

Definition setError (e : option string) : Hook unit := fun st =>
  (Normal (), {| messages := messages st; isLoading := isLoading st; error := e |}).

(** What [sendMessage] hands to [chatAPI.sendMessage]. *)
Record Outbound := {
  sent_content : string;
  chatHistory : list HistoryEntry
}.

(** The [userMessage] of lines 11-17; [uuid] and [now] are what
    [crypto.randomUUID()] and [new Date()] give. *)
Definition userMessage (content uuid : string) (now : Z) : Message :=
  {| Message.id := uuid;
     Message.role := user;
     Message.type := text;
     Message.content := content;
     Message.timestamp := DateNow now;
     Message.sources := None;
     Message.cached := None |}.

(** The [assistantMessage] of lines 31-39. *)
Definition assistantMessage (result : ChatResponse) (uuid : string) : Message :=
  {| Message.id := uuid;
     Message.role := assistant;
     Message.type := text;
     Message.content := ChatResponse.response result;
     Message.sources := Some (ChatResponse.sources result);
     Message.cached := Some (ChatResponse.cached result);
     Message.timestamp := DateOf (ChatResponse.timestamp result) |}.

(** Line 43 *)
Definition errorMsg (err : Thrown) : string :=
  if instanceof_Error err then message err else "An error occurred".

(** The message of lines 47-53. *)
Definition failureMessage (errorMsg uuid : string) (now : Z) : Message :=
  {| Message.id := uuid;
     Message.role := assistant;
     Message.type := text;
     Message.content := "Something went wrong: " +:+ errorMsg;
     Message.timestamp := DateNow now;
     Message.sources := None;
     Message.cached := None |}.

(** [sendMessage], lines 11-29, up to the suspension at [await].  The
    argument [messages] is the variable of that name the closure captured:
    the log of the render that created this [sendMessage].  Nothing in
    these lines of the [try] block throws: [chatAPI.sendMessage] is an
    [async] function and hands back a promise. *)
Definition sendMessage_call (messages : list Message) (content : string)
    (uuid : string) (now : Z) : Hook Outbound :=
  let userMessage := userMessage content uuid now in
  setMessages (fun prev => prev ++ [userMessage]);;
  setIsLoading true;;
  setError None;;
  let chatHistory :=
    map (fun m => {| HistoryEntry.role := Message.role m;
                     HistoryEntry.content := Message.content m |}) messages in
  mret {| sent_content := content; chatHistory := chatHistory |}.

(** [sendMessage], lines 29-57, from the settlement of the awaited call
    to the end. *)
Definition sendMessage_settled (settlement : Settled ChatResponse)
    (uuid : string) (now : Z) : Hook unit :=
  try_catch_finally
    (result ← await settlement;
     let assistantMessage := assistantMessage result uuid in
     setMessages (fun prev => prev ++ [assistantMessage]))
    (fun err =>
       let errorMsg := errorMsg err in
       setError (Some errorMsg);;
       setMessages (fun prev => prev ++ [failureMessage errorMsg uuid now]))
    (setIsLoading false).

(** [clearChat] *)
Definition clearChat : Hook unit :=
  setMessages (fun _ => []);;
  setError None.

End useChat.

(** ** A session, event by event

    Between the call of [sendMessage] and the settlement of its request
    anything else may run: another call, another settlement, [clearChat].
    A session is therefore a sequence of events, each applied to the cells
    as the previous one left them. *)

Import useChat.

Inductive Event :=
| Submit (messages : list Message) (content uuid : string) (now : Z)
| Settle (settlement : Settled ChatResponse) (uuid : string) (now : Z)
| NewChat.

Definition handler (ev : Event) : Hook unit :=
  match ev with
  | Submit messages content uuid now => sendMessage_call messages content uuid now;; mret ()
  | Settle settlement uuid now => sendMessage_settled settlement uuid now
  | NewChat => clearChat
  end.

Definition apply_event (st : State) (ev : Event) : State := (handler ev st).2.

Definition run (st : State) (evs : list Event) : State := foldl apply_event st evs.

(** Every event but [clearChat] is work of [sendMessage]. *)
Definition of_sendMessage (ev : Event) : bool :=
  match ev with
  | NewChat => false
  | _ => true
  end.

(** One whole [sendMessage] with nothing running between its call and the
    settlement of its request. *)
Definition sendMessage (messages : list Message) (content : string)
    (uuid1 : string) (now1 : Z)
    (settlement : Settled ChatResponse) (uuid2 : string) (now2 : Z) : Hook unit :=
  sendMessage_call messages content uuid1 now1;;
  sendMessage_settled settlement uuid2 now2.

(** Line 29: [chatAPI.sendMessage(content, chatHistory)], the call the
    hook suspends on. *)
Definition chatAPI_sendMessage (out : Outbound) (net : Network) : ChatAPIClient.Call :=
  ChatAPIClient.sendMessage (sent_content out) (Some (chatHistory out)) net.

(** The reply a settlement appends, whichever way it went. *)
Definition reply (settlement : Settled ChatResponse) (uuid : string) (now : Z) : Message :=
  match settlement with
  | Fulfilled result => assistantMessage result uuid
  | Rejected err => failureMessage (errorMsg err) uuid now
  end.

(** The [{role, content}] projection of a log. *)
Definition projection (log : list Message) : list HistoryEntry :=
  map (fun m => {| HistoryEntry.role := Message.role m;
                   HistoryEntry.content := Message.content m |}) log.

(** The session with a count of the requests in flight, under the
    discipline the interface keeps around the hook: a submission is made
    only when no request is in flight.  A settlement needs a request to
    settle. *)
Record Session := {
  cells : State;
  in_flight : nat
}.

Definition opened : Session := {| cells := initial; in_flight := 0 |}.

Definition single_flight_step (s : Session) (ev : Event) : option Session :=
  match ev, in_flight s with
  | Submit _ _ _ _, 0 => Some {| cells := apply_event (cells s) ev; in_flight := 1 |}
  | Submit _ _ _ _, S _ => None
  | Settle _ _ _, S n => Some {| cells := apply_event (cells s) ev; in_flight := n |}
  | Settle _ _ _, 0 => None
  | NewChat, n => Some {| cells := apply_event (cells s) ev; in_flight := n |}
  end.

Fixpoint single_flight_run (s : Session) (evs : list Event) : option Session :=
  match evs with
  | [] => Some s
  | ev :: rest =>
      match single_flight_step s ev with
      | Some s' => single_flight_run s' rest
      | None => None
      end
  end.

(** What holds of a session kept to one request at a time. *)
Definition single_flight_invariant (s : Session) : Prop :=
  (isLoading (cells s) = true ↔ in_flight s = 1) ∧
  (in_flight s ≤ 1)%nat ∧
  (in_flight s = 1 → error (cells s) = None).

(** ** Inputs used in the examples below *)

(** The payload of the scenario: ["hi"], no sources, not cached. *)
Definition hi_payload : ChatResponse :=
  {| ChatResponse.response := "hi";
     ChatResponse.sources := [];
     ChatResponse.cached := false;
     ChatResponse.timestamp := "2024-01-01T00:00:00Z" |}.

(** A backend that answers nothing at all. *)
Definition silent_backend : Network := NoAnswer.

(** A backend that sends the status line of an error after one second and
    then never delivers the body. *)
Definition stalled_error_body : Network :=
  Responds 1000 {| status := 500%N; body_after := None;
                   body := Parses (JObject [("detail", JString "index unavailable")]) |}.



(** ** lib/api-client.ts: the calls that arm no timer *)

Module chatAPI.

(** What the call hands to [fetch] as [body], if anything, and the promise
    it returns. *)
Record Call (A : Type) := {
  body_sent : option json;
  promise : Pending A
}.
Arguments body_sent {A} _.
Arguments promise {A} _.

(** [ingest], lines 69-81.  An array is truthy even when empty, so
    [sources ? { sources } : {}] sends the key whenever the argument is
    given. *)
Definition ingest (sources : option (list string)) (net : Network) : Call json :=
  {| body_sent :=
       Some match sources with
            | Some given => JObject [("sources", JArray (map JString given))]
            | None => JObject []
            end;
     promise :=
       match fetch net with
       | None => None
       | Some (now, Rejected e) => Some (now, Rejected e)
       | Some (now, Fulfilled response) =>
           if negb (ok response)
           then Some (now, Rejected (new_Error
                  ("Ingest error: " +:+ Number_toString (status response))))
           else Response_json now response
       end |}.

(** [clearCache], lines 83-85: the response is awaited and dropped. *)
Definition clearCache (net : Network) : Call unit :=
  {| body_sent := None;
     promise :=
       match fetch net with
       | None => None
       | Some (now, Rejected e) => Some (now, Rejected e)
       | Some (now, Fulfilled _) => Some (now, Fulfilled ())
       end |}.

(** [healthCheck], lines 87-91 *)
Definition healthCheck (net : Network) : Call json :=
  {| body_sent := None;
     promise :=
       match fetch net with
       | None => None
       | Some (now, Rejected e) => Some (now, Rejected e)
       | Some (now, Fulfilled response) =>
           if negb (ok response)
           then Some (now, Rejected (new_Error
                  ("Health check failed: " +:+ Number_toString (status response))))
           else Response_json now response
       end |}.

End chatAPI.

(** ** components/chat/chat-message.tsx *)

Module chat_message.

(** What [ChatMessage] renders, down to the choices the code makes: the
    side, the avatars, the text given to the markdown renderer, and the row
    of pills when there is one, each pill a source's [source] and [id], with
    the ["cached"] badge at its end or not. *)
Record View := {
  justify : string;
  assistant_avatar : bool;
  markdown : string;
  sources_row : option (list (string * string) * bool);
  user_avatar : bool
}.

Definition ChatMessage (message : Message) : View :=
  let isUser :=
    match Message.role message with
    | user => true
    | assistant => false
    end in
  let content := Message.content message in
  {| justify := if isUser then "justify-end" else "justify-start";
     assistant_avatar := negb isUser;
     markdown := content;
     sources_row :=
       if negb isUser then
         match Message.sources message with
         | Some (first :: rest) =>
             Some (map (fun src => (Source.source src, Source.id src)) (first :: rest),
                   match Message.cached message with
                   | Some true => true
                   | _ => false
                   end)
         | _ => None
         end
       else None;
     user_avatar := isUser |}.

End chat_message.

(** ** components/chat/chat-input.tsx *)

Module chat_input.

(** A text is kept as its UTF-8 bytes.  The white space and line
    terminators that [trim] strips: U+0009 to U+000D and U+0020; U+00A0;
    U+1680, U+2000 to U+200A, U+2028, U+2029, U+202F, U+205F, U+3000 and
    U+FEFF. *)
Definition white_space_1 (b : N) : bool :=
  ((9 <=? b) && (b <=? 13) || (b =? 32))%N.

Definition white_space_2 (b1 b2 : N) : bool :=
  ((b1 =? 0xC2) && (b2 =? 0xA0))%N.

Definition white_space_3 (b1 b2 b3 : N) : bool :=
  ((b1 =? 0xE1) && (b2 =? 0x9A) && (b3 =? 0x80)
   || (b1 =? 0xE2) && (b2 =? 0x80)
      && ((0x80 <=? b3) && (b3 <=? 0x8A) || (b3 =? 0xA8) || (b3 =? 0xA9) || (b3 =? 0xAF))
   || (b1 =? 0xE2) && (b2 =? 0x81) && (b3 =? 0x9F)
   || (b1 =? 0xE3) && (b2 =? 0x80) && (b3 =? 0x80)
   || (b1 =? 0xEF) && (b2 =? 0xBB) && (b3 =? 0xBF))%N.

(** [!input.trim()]: nothing is left of the input once the white space is
    stripped, that is, the input is white space from end to end. *)
Fixpoint blank (input : string) : bool :=
  match input with
  | EmptyString => true
  | String c1 rest1 =>
      if white_space_1 (Ascii.N_of_ascii c1) then blank rest1 else
      match rest1 with
      | EmptyString => false
      | String c2 rest2 =>
          if white_space_2 (Ascii.N_of_ascii c1) (Ascii.N_of_ascii c2) then blank rest2 else
          match rest2 with
          | EmptyString => false
          | String c3 rest3 =>
              if white_space_3 (Ascii.N_of_ascii c1) (Ascii.N_of_ascii c2) (Ascii.N_of_ascii c3)
              then blank rest3 else false
          end
      end
  end.

(** What a handler did: what it gave to [onSend], if it called it, the
    [input] it leaves in the field, and whether it called
    [e.preventDefault()]. *)
Record Handled := {
  onSend : option string;
  input : string;
  defaultPrevented : bool
}.

(** [handleSubmit], lines 13-18 *)
Definition handleSubmit (input : string) (disabled : bool) : Handled :=
  if blank input || disabled
  then {| onSend := None; input := input; defaultPrevented := true |}
  else {| onSend := Some input; input := ""; defaultPrevented := true |}.

(** [handleKeyDown], lines 20-25 *)
Definition handleKeyDown (key : string) (shiftKey : bool)
    (input : string) (disabled : bool) : Handled :=
  if String.eqb key "Enter" && negb shiftKey
  then handleSubmit input disabled
  else {| onSend := None; input := input; defaultPrevented := false |}.

(** The submit button's [disabled={disabled || !input.trim()}] *)
Definition button_disabled (input : string) (disabled : bool) : bool :=
  disabled || blank input.

End chat_input.

(** ** components/chat/chat-welcome.tsx *)

Module chat_welcome.

(** [examplePrompts], each with its [text] and [category]; a click on the
    [index]-th button calls [onPromptClick(prompt.text)]. *)
Definition examplePrompts : list (string * string) :=
  [ ("What are my urgent tasks?", "Jira");
    ("Show me unread emails from today", "Gmail");
    ("What meetings do I have this week?", "Calendar");
    ("Which tasks are due this week?", "Deadlines");
    ("Search for issues assigned to me", "Search");
    ("Remind me to check KAN-1 tomorrow at 9am", "Reminder") ].

Definition onClick (index : nat) : option string :=
  fst <$> examplePrompts !! index.

End chat_welcome.

(** ** components/chat/chat.tsx, with chat-message-list.tsx *)

Module chat.

Import useChat.

Inductive Main :=
| ChatWelcome
| ChatMessageList (items : list chat_message.View) (spinner : bool).

(** What [Chat] renders from the hook's cells: the New Chat button, if it
    is there, with its [disabled]; the text of the error banner, if it is
    there; the welcome screen or the list of messages; and the [disabled]
    handed to [ChatInput]. *)
Record View := {
  new_chat_button : option bool;
  error_banner : option string;
  main : Main;
  input_disabled : bool
}.

Definition Chat (st : State) : View :=
  {| new_chat_button :=
       if (0 <? length (messages st))%nat then Some (isLoading st) else None;
     error_banner :=
       match error st with
       | Some e => if String.eqb e "" then None else Some e
       | None => None
       end;
     main :=
       if (length (messages st) =? 0)%nat then ChatWelcome
       else ChatMessageList (map chat_message.ChatMessage (messages st)) (isLoading st);
     input_disabled := isLoading st |}.

End chat.

(** ** The interface, event by event

    The hook behind the components that call it.  Each handler is the one
    of the latest render: the [messages] its [sendMessage] captured is the
    log in the cells.  [awaiting] counts the requests in flight. *)

Record Ui := {
  hook : State;
  draft : string;
  awaiting : nat
}.

Definition launched : Ui := {| hook := initial; draft := ""; awaiting := 0 |}.

Inductive UiEvent :=
| Change (value : string)
| SubmitForm (uuid : string) (now : Z)
| KeyDown (key : string) (shiftKey : bool) (uuid : string) (now : Z)
| ClickPrompt (index : nat) (uuid : string) (now : Z)
| ClickNewChat
| Settles (settlement : Settled ChatResponse) (uuid : string) (now : Z).

(** What the form's handlers do with the draft, if the event is theirs. *)
Definition handled (s : Ui) (ev : UiEvent) : option chat_input.Handled :=
  let disabled := chat.input_disabled (chat.Chat (hook s)) in
  match ev with
  | SubmitForm _ _ => Some (chat_input.handleSubmit (draft s) disabled)
  | KeyDown key shiftKey _ _ => Some (chat_input.handleKeyDown key shiftKey (draft s) disabled)
  | _ => None
  end.

(** The call into the hook that an event of the interface makes, if it
    makes one.  A button that is not rendered, or is disabled, is not
    clicked; a settlement needs a request in flight. *)
Definition performs (s : Ui) (ev : UiEvent) : option Event :=
  let view := chat.Chat (hook s) in
  match ev with
  | Change _ => None
  | SubmitForm uuid now | KeyDown _ _ uuid now =>
      match handled s ev with
      | Some h =>
          match chat_input.onSend h with
          | Some content => Some (Submit (messages (hook s)) content uuid now)
          | None => None
          end
      | None => None
      end
  | ClickPrompt index uuid now =>
      match chat.main view, chat_welcome.onClick index with
      | chat.ChatWelcome, Some content => Some (Submit (messages (hook s)) content uuid now)
      | _, _ => None
      end
  | ClickNewChat =>
      match chat.new_chat_button view with
      | Some false => Some NewChat
      | _ => None
      end
  | Settles settlement uuid now =>
      if (0 <? awaiting s)%nat then Some (Settle settlement uuid now) else None
  end.

Definition ui_step (s : Ui) (ev : UiEvent) : Ui :=
  {| hook :=
       match performs s ev with
       | Some call => apply_event (hook s) call
       | None => hook s
       end;
     draft :=
       match ev, handled s ev with
       | Change value, _ =>
           if chat.input_disabled (chat.Chat (hook s)) then draft s else value
       | _, Some h => chat_input.input h
       | _, None => draft s
       end;
     awaiting :=
       match performs s ev with
       | Some (Submit _ _ _ _) => S (awaiting s)
       | Some (Settle _ _ _) => pred (awaiting s)
       | _ => awaiting s
       end |}.

Definition ui_run (s : Ui) (evs : list UiEvent) : Ui := foldl ui_step s evs.

(** The calls into the hook that a run of the interface makes, in order. *)
Fixpoint ui_calls (s : Ui) (evs : list UiEvent) : list Event :=
  match evs with
  | [] => []
  | ev :: rest =>
      match performs s ev with
      | Some call => call :: ui_calls (ui_step s ev) rest
      | None => ui_calls (ui_step s ev) rest
      end
  end.

(** Whose turn the [i]-th message of a conversation is. *)
Definition turn (i : nat) : MessageRole :=
  if Nat.even i then user else assistant.

(** The event is [clearChat]. *)
Definition is_NewChat (ev : Event) : bool := negb (of_sendMessage ev).

(** What holds of the interface after any events. *)
Definition ui_invariant (s : Ui) : Prop :=
  isLoading (hook s) = Nat.odd (length (messages (hook s))) ∧
  awaiting s = (if isLoading (hook s) then 1 else 0) ∧
  (∀ i m, messages (hook s) !! i = Some m → Message.role m = turn i) ∧
  (∀ m, m ∈ messages (hook s) → Message.role m = user →
        chat_input.blank (Message.content m) = false).

(** * Properties *)

(** ** The hook's three pieces, run *)

Lemma sendMessage_call_run captured content uuid now st :
  sendMessage_call captured content uuid now st =
  (Normal {| sent_content := content; chatHistory := projection captured |},
   {| messages := messages st ++ [userMessage content uuid now];
      isLoading := true;
      error := None |}).
Proof. reflexivity. Qed.

Lemma sendMessage_settled_fulfilled result uuid now st :
  sendMessage_settled (Fulfilled result) uuid now st =
  (Normal (),
   {| messages := messages st ++ [assistantMessage result uuid];
      isLoading := false;
      error := error st |}).
Proof. reflexivity. Qed.

Lemma sendMessage_settled_rejected err uuid now st :
  sendMessage_settled (Rejected err) uuid now st =
  (Normal (),
   {| messages := messages st ++ [failureMessage (errorMsg err) uuid now];
      isLoading := false;
      error := Some (errorMsg err) |}).
Proof. reflexivity. Qed.

Lemma clearChat_run st :
  clearChat st =
  (Normal (), {| messages := []; isLoading := isLoading st; error := None |}).
Proof. reflexivity. Qed.

Lemma apply_event_Submit captured content uuid now st :
  apply_event st (Submit captured content uuid now) =
  {| messages := messages st ++ [userMessage content uuid now];
     isLoading := true;
     error := None |}.
Proof. reflexivity. Qed.

Lemma apply_event_Settle settlement uuid now st :
  apply_event st (Settle settlement uuid now) =
  {| messages := messages st ++ [reply settlement uuid now];
     isLoading := false;
     error := match settlement with
              | Fulfilled _ => error st
              | Rejected err => Some (errorMsg err)
              end |}.
Proof. destruct settlement; reflexivity. Qed.

Lemma apply_event_NewChat st :
  apply_event st NewChat =
  {| messages := []; isLoading := isLoading st; error := None |}.
Proof. reflexivity. Qed.

(** ** The log only grows under [sendMessage] *)

Lemma apply_event_appends st ev :
  of_sendMessage ev = true →
  ∃ m, messages (apply_event st ev) = messages st ++ [m].
Proof.
  destruct ev as [captured content uuid now | settlement uuid now | ]; intros Hev.
  - exists (userMessage content uuid now). reflexivity.
  - exists (reply settlement uuid now). rewrite apply_event_Settle. reflexivity.
  - discriminate Hev.
Qed.

Lemma run_prefix evs : ∀ st,
  forallb of_sendMessage evs = true →
  messages st `prefix_of` messages (run st evs).
Proof.
  induction evs as [| ev evs IH]; intros st Hevs; simpl in *.
  - reflexivity.
  - apply andb_prop in Hevs as [Hev Hevs].
    destruct (apply_event_appends st ev Hev) as [m Hm].
    transitivity (messages (apply_event st ev)).
    + rewrite Hm. apply prefix_app_r. reflexivity.
    + apply IH, Hevs.
Qed.

Lemma run_length evs : ∀ st,
  forallb of_sendMessage evs = true →
  length (messages (run st evs)) = length (messages st) + length evs.
Proof.
  induction evs as [| ev evs IH]; intros st Hevs; simpl in *.
  - lia.
  - apply andb_prop in Hevs as [Hev Hevs].
    destruct (apply_event_appends st ev Hev) as [m Hm].
    rewrite (IH _ Hevs), Hm, length_app. simpl. lia.
Qed.

(** C1: whatever the text, the part of [sendMessage] that runs before the
    suspension at the network call appends one message to the log, of role
    user and with the submitted text as content; and however the requests
    in flight settle afterwards, and whatever is submitted next, the message
    stays where it was put. *)
Theorem submit_appends_user_message st captured content uuid now evs
    (Hevs : forallb of_sendMessage evs = true) :
  let st1 := (sendMessage_call captured content uuid now st).2 in
  let u := userMessage content uuid now in
  messages st1 = messages st ++ [u] ∧
  Message.role u = user ∧
  Message.content u = content ∧
  messages (run st1 evs) !! length (messages st) = Some u.
Proof.
  intros st1 u. repeat split.
  apply (prefix_lookup_Some (messages st1)); [| apply run_prefix, Hevs].
  unfold st1. rewrite sendMessage_call_run. simpl.
  apply list_lookup_middle. reflexivity.
Qed.

Lemma submit_appends_user_message_witness :
  let st1 := (sendMessage_call [] "hello" "id-1" 0 initial).2 in
  let evs := [Settle (Rejected (new_Error "Failed to fetch")) "id-2" 7;
              Submit [] "again" "id-3" 9;
              Settle (Fulfilled hi_payload) "id-4" 12] in
  messages st1 = [userMessage "hello" "id-1" 0] ∧
  Message.role (userMessage "hello" "id-1" 0) = user ∧
  Message.content (userMessage "hello" "id-1" 0) = "hello" ∧
  messages (run st1 evs) !! 0 = Some (userMessage "hello" "id-1" 0).
Proof.
  exact (submit_appends_user_message initial [] "hello" "id-1" 0
           [Settle (Rejected (new_Error "Failed to fetch")) "id-2" 7;
            Submit [] "again" "id-3" 9;
            Settle (Fulfilled hi_payload) "id-4" 12] eq_refl).
Defined.

(** C7: between resets the log is append-only.  Over any stretch of events
    other than [clearChat] the log it started from is a prefix of the log
    it ends with, so every message is still at its index, unchanged; the
    stretch adds one message per event; and [clearChat] empties the log. *)
Theorem log_append_only st evs (Hevs : forallb of_sendMessage evs = true) :
  messages st `prefix_of` messages (run st evs) ∧
  (∀ i m, messages st !! i = Some m → messages (run st evs) !! i = Some m) ∧
  length (messages (run st evs)) = length (messages st) + length evs ∧
  messages (apply_event (run st evs) NewChat) = [].
Proof.
  pose proof (run_prefix evs st Hevs) as Hpre.
  repeat split.
  - exact Hpre.
  - intros i m Hm. exact (prefix_lookup_Some _ _ _ _ Hm Hpre).
  - apply run_length, Hevs.
Qed.

Lemma log_append_only_witness :
  let st := run initial [Submit [] "hello" "id-1" 0] in
  let evs := [Settle (Fulfilled hi_payload) "id-2" 5] in
  messages st `prefix_of` messages (run st evs) ∧
  (∀ i m, messages st !! i = Some m → messages (run st evs) !! i = Some m) ∧
  length (messages (run st evs)) = length (messages st) + length evs ∧
  messages (apply_event (run st evs) NewChat) = [].
Proof.
  exact (log_append_only (run initial [Submit [] "hello" "id-1" 0])
           [Settle (Fulfilled hi_payload) "id-2" 5] eq_refl).
Defined.

(** ** Reset *)

(** An empty log never comes with a stored error: every event that stores
    one also appends a message, and [clearChat] clears both. *)
Lemma empty_log_no_error evs : ∀ st,
  (messages st = [] → error st = None) →
  messages (run st evs) = [] → error (run st evs) = None.
Proof.
  induction evs as [| ev evs IH]; intros st Hst; simpl.
  - exact Hst.
  - apply IH.
    destruct ev as [captured content uuid now | settlement uuid now | ].
    + rewrite apply_event_Submit. reflexivity.
    + rewrite apply_event_Settle. simpl. intros Hnil.
      destruct (app_cons_not_nil _ _ _ (eq_sym Hnil)).
    + reflexivity.
Qed.

(** C9: from any state [clearChat] leaves an empty log and no error, and
    does not touch [isLoading]; doing it twice is doing it once; and on a
    session whose log is already empty, however it got there, it changes
    nothing at all. *)
Theorem clearChat_resets st evs (Hempty : messages (run initial evs) = []) :
  clearChat st = (Normal (), {| messages := []; isLoading := isLoading st; error := None |}) ∧
  apply_event (apply_event st NewChat) NewChat = apply_event st NewChat ∧
  clearChat (run initial evs) = (Normal (), run initial evs).
Proof.
  repeat split.
  rewrite clearChat_run.
  pose proof (empty_log_no_error evs initial (fun _ => eq_refl) Hempty) as Herr.
  destruct (run initial evs) as [log loading err]; simpl in *.
  rewrite Hempty, Herr. reflexivity.
Qed.

Lemma clearChat_resets_witness :
  let evs := [Submit [] "hello" "id-1" 0;
              Settle (Rejected (new_Error "Failed to fetch")) "id-2" 5;
              NewChat] in
  let st := run initial [Submit [] "hello" "id-1" 0;
                         Settle (Rejected (new_Error "Failed to fetch")) "id-2" 5] in
  clearChat st = (Normal (), {| messages := []; isLoading := isLoading st; error := None |}) ∧
  apply_event (apply_event st NewChat) NewChat = apply_event st NewChat ∧
  clearChat (run initial evs) = (Normal (), run initial evs).
Proof.
  exact (clearChat_resets
           (run initial [Submit [] "hello" "id-1" 0;
                         Settle (Rejected (new_Error "Failed to fetch")) "id-2" 5])
           [Submit [] "hello" "id-1" 0;
            Settle (Rejected (new_Error "Failed to fetch")) "id-2" 5;
            NewChat] eq_refl).
Defined.

(** ** The stored error *)

(** C10: the call of [sendMessage] clears the stored error before it
    suspends, whatever the state; a fulfilled request leaves the stored
    error as it finds it; so the error a failed submission stored is gone
    as soon as the next submission is made, and if that one fails too the
    error stored is its own. *)
Theorem error_cleared_at_call st captured content uuid now :
  error (sendMessage_call captured content uuid now st).2 = None ∧
  (∀ result uuid' now',
     error (sendMessage_settled (Fulfilled result) uuid' now' st).2 = error st) ∧
  (∀ err uuid1 now1 err' uuid2 now2,
     let failed := (sendMessage_settled (Rejected err) uuid1 now1 st).2 in
     let resubmitted := (sendMessage_call captured content uuid now failed).2 in
     error failed = Some (errorMsg err) ∧
     error resubmitted = None ∧
     error (sendMessage_settled (Rejected err') uuid2 now2 resubmitted).2
       = Some (errorMsg err')).
Proof. repeat split. Qed.

(** ** One request at a time *)

Lemma single_flight_step_invariant s ev s' :
  single_flight_invariant s →
  single_flight_step s ev = Some s' →
  single_flight_invariant s'.
Proof.
  intros (Hload & Hle & Herr) Hstep.
  destruct s as [st n]; simpl in *.
  destruct ev as [captured content uuid now | settlement uuid now | ];
    destruct n as [| n]; simplify_eq/=; unfold single_flight_invariant; simpl.
  - split_and!; [split | |]; auto.
  - assert (n = 0) as -> by lia.
    rewrite apply_event_Settle; simpl.
    split_and!; [split; intros; discriminate | lia | intros; discriminate].
  - split_and!; [exact Hload | lia | reflexivity].
  - split_and!; [exact Hload | lia | reflexivity].
Qed.

Lemma single_flight_run_invariant evs : ∀ s s',
  single_flight_invariant s →
  single_flight_run s evs = Some s' →
  single_flight_invariant s'.
Proof.
  induction evs as [| ev evs IH]; intros s s' Hinv Hrun; simpl in Hrun.
  - by simplify_eq.
  - destruct (single_flight_step s ev) as [s1 |] eqn:Hstep; [| discriminate].
    exact (IH s1 s' (single_flight_step_invariant s ev s1 Hinv Hstep) Hrun).
Qed.

Lemma opened_invariant : single_flight_invariant opened.
Proof.
  unfold single_flight_invariant; simpl.
  split_and!; [split; intros; discriminate | lia | intros; discriminate].
Qed.

(** C8: in a session kept to one request at a time, [isLoading] is true
    exactly when a request is in flight (and there is never more than one);
    from there the call of [sendMessage] leaves it true at the suspension,
    and the settlement, fulfilled or rejected with any error, a timeout
    included, completes normally and leaves it false. *)
Theorem isLoading_iff_in_flight evs s (Hrun : single_flight_run opened evs = Some s) :
  (isLoading (cells s) = true ↔ in_flight s = 1) ∧
  (in_flight s ≤ 1)%nat ∧
  (∀ captured content uuid now,
     isLoading (sendMessage_call captured content uuid now (cells s)).2 = true) ∧
  (∀ settlement uuid now,
     (sendMessage_settled settlement uuid now (cells s)).1 = Normal () ∧
     isLoading (sendMessage_settled settlement uuid now (cells s)).2 = false).
Proof.
  destruct (single_flight_run_invariant evs opened s opened_invariant Hrun)
    as (Hload & Hle & _).
  split_and!; [exact Hload | exact Hle | reflexivity |].
  intros [result | err] uuid now; split; reflexivity.
Qed.

Lemma isLoading_iff_in_flight_witness :
  let s := {| cells := apply_event (apply_event initial (Submit [] "hello" "id-1" 0)) NewChat;
              in_flight := 1 |} in
  (isLoading (cells s) = true ↔ in_flight s = 1) ∧
  (in_flight s ≤ 1)%nat ∧
  (∀ captured content uuid now,
     isLoading (sendMessage_call captured content uuid now (cells s)).2 = true) ∧
  (∀ settlement uuid now,
     (sendMessage_settled settlement uuid now (cells s)).1 = Normal () ∧
     isLoading (sendMessage_settled settlement uuid now (cells s)).2 = false).
Proof.
  exact (isLoading_iff_in_flight [Submit [] "hello" "id-1" 0; NewChat] _ eq_refl).
Defined.

(** ** A fulfilled request *)

(** C3: when the request of a session kept to one request at a time is
    fulfilled with [result], the settlement completes normally and appends
    one assistant message, with [response] as content, the payload's
    [sources] and [cached], and the date parsed from the payload's
    [timestamp]; no error is stored afterwards.  A whole [sendMessage]
    answered that way, from any state, adds the user message and then that
    assistant message, and ends with no stored error.  From the initial
    state, ["hello"] answered by the ["hi"] payload sends an empty history
    and leaves the two messages user ["hello"], assistant ["hi"]. *)
Theorem fulfilled_appends_assistant_message evs s result uuid now
    (Hrun : single_flight_run opened evs = Some s) (Hflight : in_flight s = 1) :
  let a := assistantMessage result uuid in
  sendMessage_settled (Fulfilled result) uuid now (cells s) =
    (Normal (),
     {| messages := messages (cells s) ++ [a]; isLoading := false; error := None |}) ∧
  (Message.role a = assistant ∧
   Message.content a = ChatResponse.response result ∧
   Message.sources a = Some (ChatResponse.sources result) ∧
   Message.cached a = Some (ChatResponse.cached result) ∧
   Message.timestamp a = DateOf (ChatResponse.timestamp result)) ∧
  (∀ st captured content uuid1 now1,
     sendMessage captured content uuid1 now1 (Fulfilled result) uuid now st =
       (Normal (),
        {| messages := messages st ++ [userMessage content uuid1 now1; a];
           isLoading := false;
           error := None |})) ∧
  (∀ uuid1 now1,
     (sendMessage_call [] "hello" uuid1 now1 initial).1
       = Normal {| sent_content := "hello"; chatHistory := [] |} ∧
     projection
       (messages (sendMessage [] "hello" uuid1 now1 (Fulfilled hi_payload) uuid now initial).2)
       = [ {| HistoryEntry.role := user; HistoryEntry.content := "hello" |};
           {| HistoryEntry.role := assistant; HistoryEntry.content := "hi" |} ]).
Proof.
  intros a.
  destruct (single_flight_run_invariant evs opened s opened_invariant Hrun)
    as (_ & _ & Herr).
  split_and!; try reflexivity.
  - rewrite sendMessage_settled_fulfilled, (Herr Hflight). reflexivity.
  - intros st captured content uuid1 now1.
    unfold sendMessage, mbind, Hook_bind.
    rewrite sendMessage_call_run, sendMessage_settled_fulfilled. simpl.
    rewrite <- app_assoc. reflexivity.
  - intros uuid1 now1. split; reflexivity.
Qed.

Lemma fulfilled_appends_assistant_message_witness :
  sendMessage_settled (Fulfilled hi_payload) "id-2" 5
      (apply_event initial (Submit [] "hello" "id-1" 0)) =
    (Normal (),
     {| messages := [userMessage "hello" "id-1" 0; assistantMessage hi_payload "id-2"];
        isLoading := false;
        error := None |}).
Proof.
  exact (proj1 (fulfilled_appends_assistant_message
                  [Submit [] "hello" "id-1" 0] _ hi_payload "id-2" 5 eq_refl eq_refl)).
Defined.

(** ** What the transport rejects with *)

Lemma sendMessage_rejects_with_Error msg hist net t err :
  ChatAPIClient.promise (ChatAPIClient.sendMessage msg hist net) = Some (t, Rejected err) →
  instanceof_Error err = true.
Proof.
  unfold ChatAPIClient.sendMessage, ChatAPIClient.await_with_signal, fetch, Response_json.
  destruct net as [after r | after why | ]; simpl.
  - destruct (after <? ChatAPIClient.TIMEOUT_MS)%N; simpl;
      [| intros; simplify_eq/=; reflexivity].
    destruct (ok r); simpl.
    + destruct (body_after r); [| discriminate].
      destruct (body r); intros; simplify_eq/=; reflexivity.
    + destruct (body_after r) as [d |]; simpl;
        [destruct (after + d <? ChatAPIClient.TIMEOUT_MS)%N; simpl;
           [destruct (body r) as [v | why]; simpl |] |].
      * destruct (get_property v "detail") as [e | | dv] eqn:Hget; simpl.
        -- destruct v; simpl in Hget; simplify_eq/=;
             try (destruct (own_property _ _); discriminate).
           intros; simplify_eq/=; reflexivity.
        -- intros; simplify_eq/=; reflexivity.
        -- intros; simplify_eq/=; reflexivity.
      * intros; simplify_eq/=; reflexivity.
      * intros; simplify_eq/=; reflexivity.
      * intros; simplify_eq/=; reflexivity.
  - destruct (after <? ChatAPIClient.TIMEOUT_MS)%N; simpl;
      intros; simplify_eq/=; reflexivity.
  - intros; simplify_eq/=; reflexivity.
Qed.

(** ** A rejected request *)

(** C4: whatever the transport rejects with (it is always an [Error]), the
    settlement catches it and completes normally; it appends one assistant
    message whose content is ["Something went wrong: "] followed by the
    error's message, and stores that message as the error. *)
Theorem rejected_appends_synthesized_message msg hist net t err st uuid now
    (Hrejects : ChatAPIClient.promise (ChatAPIClient.sendMessage msg hist net)
                = Some (t, Rejected err)) :
  let m := failureMessage (message err) uuid now in
  instanceof_Error err = true ∧
  sendMessage_settled (Rejected err) uuid now st =
    (Normal (),
     {| messages := messages st ++ [m];
        isLoading := false;
        error := Some (message err) |}) ∧
  Message.role m = assistant ∧
  Message.content m = "Something went wrong: " +:+ message err.
Proof.
  intros m.
  pose proof (sendMessage_rejects_with_Error _ _ _ _ _ Hrejects) as Herr.
  split_and!; try reflexivity; [exact Herr |].
  rewrite sendMessage_settled_rejected. unfold errorMsg. rewrite Herr. reflexivity.
Qed.

Lemma rejected_appends_synthesized_message_witness :
  sendMessage_settled (Rejected (ErrorObject "TypeError" "Failed to fetch")) "id-2" 9
      (apply_event initial (Submit [] "hello" "id-1" 0)) =
    (Normal (),
     {| messages := [userMessage "hello" "id-1" 0;
                     failureMessage "Failed to fetch" "id-2" 9];
        isLoading := false;
        error := Some "Failed to fetch" |}).
Proof.
  exact (proj1 (proj2 (rejected_appends_synthesized_message
     "hello" (Some []) (NetworkError 40 "Failed to fetch") 40%N
     (ErrorObject "TypeError" "Failed to fetch")
     (apply_event initial (Submit [] "hello" "id-1" 0)) "id-2" 9 eq_refl))).
Defined.

(** ** The deadline *)

(** While [fetch] itself is pending at 30000 ms, whether the backend never
    answers or would answer later, the timer aborts the controller and the
    call rejects, at that instant, with the time-out message. *)
Lemma deadline_before_response msg hist net :
  match fetch net with
  | Some (t, _) => (ChatAPIClient.TIMEOUT_MS ≤ t)%N
  | None => True
  end →
  ChatAPIClient.sendMessage msg hist net =
  {| ChatAPIClient.request :=
       {| ChatRequest.message := msg; ChatRequest.chat_history := hist |};
     ChatAPIClient.cancelled := true;
     ChatAPIClient.cleared_at := 30000;
     ChatAPIClient.promise :=
       Some (30000%N, Rejected (new_Error "Request timed out. Please try again.")) |}.
Proof.
  unfold ChatAPIClient.sendMessage, ChatAPIClient.await_with_signal.
  destruct (fetch net) as [[t s] |]; [| reflexivity].
  intros Hlate. apply N.ltb_ge in Hlate. rewrite Hlate. reflexivity.
Qed.

(** C5: the timer is set to 30000 ms and a backend that answers nothing is
    cut off then with ["Request timed out. Please try again."], which the
    hook turns into ["Something went wrong: Request timed out. Please try
    again."].  A backend that has sent the status line of an error and not
    yet its body is cut off at the same instant, the controller aborted all
    the same, but the call then rejects with ["HTTP 500"]: the [catch] on
    [response.json()] takes the abort for a body that does not parse. *)
Theorem deadline_during_error_body :
  ChatAPIClient.TIMEOUT_MS = 30000%N ∧
  ChatAPIClient.sendMessage "hello" (Some []) silent_backend =
    {| ChatAPIClient.request :=
         {| ChatRequest.message := "hello"; ChatRequest.chat_history := Some [] |};
       ChatAPIClient.cancelled := true;
       ChatAPIClient.cleared_at := 30000;
       ChatAPIClient.promise :=
         Some (30000%N, Rejected (new_Error "Request timed out. Please try again.")) |} ∧
  Message.content
    (reply (Rejected (new_Error "Request timed out. Please try again.")) "id-2" 30001)
    = "Something went wrong: Request timed out. Please try again." ∧
  ChatAPIClient.sendMessage "hello" (Some []) stalled_error_body =
    {| ChatAPIClient.request :=
         {| ChatRequest.message := "hello"; ChatRequest.chat_history := Some [] |};
       ChatAPIClient.cancelled := true;
       ChatAPIClient.cleared_at := 30000;
       ChatAPIClient.promise := Some (30000%N, Rejected (new_Error "HTTP 500")) |} ∧
  messages (apply_event (apply_event initial (Submit [] "hello" "id-1" 0))
                        (Settle (Rejected (new_Error "HTTP 500")) "id-2" 30001))
    = [userMessage "hello" "id-1" 0;
       failureMessage "HTTP 500" "id-2" 30001] ∧
  Message.content (failureMessage "HTTP 500" "id-2" 30001) = "Something went wrong: HTTP 500".
Proof. split_and!; reflexivity. Qed.

(** ** A status that is not a success *)




(** ** The history sent *)

(** Outside the discipline of one request at a time: the [sendMessage] of
    the first render called again while its first request is pending, which
    the interface never does.  The second call appends its message after
    the first call's, but the [messages] it captured is still the empty
    log, and the history it sends is empty. *)
Lemma stale_closure_history :
  let first := sendMessage_call [] "a" "id-1" 0 initial in
  let second := sendMessage_call [] "b" "id-2" 1 first.2 in
  projection (messages first.2) = [ {| HistoryEntry.role := user; HistoryEntry.content := "a" |} ] ∧
  messages second.2 = messages first.2 ++ [userMessage "b" "id-2" 1] ∧
  second.1 = Normal {| sent_content := "b"; chatHistory := [] |} ∧
  second.1 ≠ Normal {| sent_content := "b"; chatHistory := projection (messages first.2) |}.
Proof. split_and!; try reflexivity. discriminate. Qed.

(** C2: a submission is made through the [sendMessage] of the render of
    the current log.  The history it hands to the transport, and the
    [chat_history] of the request, is the [{role, content}] projection of
    the log as it stood before the user message just appended, which is not
    part of it.  (Whatever [messages] a closure captured, the history is
    the projection of that.) *)
Theorem history_is_captured_log st captured content uuid now
    (Hlatest : captured = messages st) :
  (∀ any_captured,
     (sendMessage_call any_captured content uuid now st).1 =
     Normal {| sent_content := content; chatHistory := projection any_captured |}) ∧
  (sendMessage_call captured content uuid now st).1 =
    Normal {| sent_content := content; chatHistory := projection (messages st) |} ∧
  (∀ net,
     ChatAPIClient.request
       (chatAPI_sendMessage
          {| sent_content := content; chatHistory := projection (messages st) |} net) =
     {| ChatRequest.message := content;
        ChatRequest.chat_history := Some (projection (messages st)) |}) ∧
  messages (sendMessage_call captured content uuid now st).2 =
    messages st ++ [userMessage content uuid now] ∧
  length (projection (messages st)) = length (messages st).
Proof.
  subst captured. split_and!; try reflexivity.
  - intros net. unfold chatAPI_sendMessage, ChatAPIClient.sendMessage.
    destruct (ChatAPIClient.outcome _) as [response | e]; [destruct (negb _) |];
      reflexivity.
  - unfold projection. apply length_map.
Qed.

Lemma history_is_captured_log_witness :
  let st := run initial [Submit [] "a" "id-1" 0; Settle (Fulfilled hi_payload) "id-2" 4] in
  (sendMessage_call (messages st) "b" "id-3" 6 st).1 =
    Normal {| sent_content := "b";
              chatHistory := [ {| HistoryEntry.role := user; HistoryEntry.content := "a" |};
                               {| HistoryEntry.role := assistant; HistoryEntry.content := "hi" |} ] |}.
Proof.
  exact (proj1 (proj2 (history_is_captured_log
     (run initial [Submit [] "a" "id-1" 0; Settle (Fulfilled hi_payload) "id-2" 4])
     _ "b" "id-3" 6 eq_refl))).
Defined.

(** * Further properties *)

(** ** The transport's timer *)

(** X1: on every path the [finally] clears the timer, and never later than
    30000 ms into the call; the controller is aborted exactly when that
    happens at 30000 ms; and the caller's promise never settles before the
    timer is cleared. *)
Theorem timer_cleared_by_deadline msg hist net :
  let call := ChatAPIClient.sendMessage msg hist net in
  (ChatAPIClient.cleared_at call ≤ 30000)%N ∧
  (ChatAPIClient.cancelled call = true ↔ ChatAPIClient.cleared_at call = 30000%N) ∧
  (∀ t s, ChatAPIClient.promise call = Some (t, s) → (ChatAPIClient.cleared_at call ≤ t)%N).
Proof.
  unfold ChatAPIClient.sendMessage, ChatAPIClient.await_with_signal, fetch, Response_json.
  change ChatAPIClient.TIMEOUT_MS with 30000%N.
  destruct net as [after r | after why | ]; simpl.
  - destruct (after <? 30000)%N eqn:Hafter; simpl.
    + apply N.ltb_lt in Hafter.
      destruct (ok r); simpl.
      * split_and!; [lia | split; [discriminate | lia] |].
        intros t s. destruct (body_after r); intros; simplify_eq/=; lia.
      * destruct (body_after r) as [d |]; simpl;
          [destruct (after + d <? 30000)%N eqn:Hread; simpl |].
        -- apply N.ltb_lt in Hread.
           destruct (body r) as [v | why]; simpl;
             [destruct (get_property v "detail") as [e | | dv] |]; simpl.
           all: split_and!; [lia | split; [discriminate | lia] |].
           all: try destruct (_ && _).
           all: intros; simplify_eq/=; lia.
        -- split_and!; [lia | done |]. intros; simplify_eq/=; lia.
        -- split_and!; [lia | done |]. intros; simplify_eq/=; lia.
    + split_and!; [lia | done |]. intros; simplify_eq/=; lia.
  - destruct (after <? 30000)%N eqn:Hafter; simpl.
    + apply N.ltb_lt in Hafter.
      split_and!; [lia | split; [discriminate | lia] |]. intros; simplify_eq/=; lia.
    + split_and!; [lia | done |]. intros; simplify_eq/=; lia.
  - split_and!; [lia | done |]. intros; simplify_eq/=; lia.
Qed.

(** X2: the caller's promise stays pending for ever in one case only: a
    response with a status in 200-299 arrived before the deadline and its
    body never does.  However the backend behaves otherwise, the call
    settles. *)
Theorem sendMessage_hangs_iff msg hist net :
  ChatAPIClient.promise (ChatAPIClient.sendMessage msg hist net) = None ↔
  ∃ after r, net = Responds after r ∧ (after < 30000)%N ∧ ok r = true ∧ body_after r = None.
Proof.
  unfold ChatAPIClient.sendMessage, ChatAPIClient.await_with_signal, fetch, Response_json.
  change ChatAPIClient.TIMEOUT_MS with 30000%N.
  split.
  - destruct net as [after r | after why | ]; simpl.
    + destruct (after <? 30000)%N eqn:Hafter; simpl; [| discriminate].
      apply N.ltb_lt in Hafter.
      destruct (ok r) eqn:Hok; simpl.
      * destruct (body_after r) eqn:Hbody; [discriminate |].
        intros _. exists after, r. done.
      * destruct (body_after r) as [d |]; simpl;
          [destruct (after + d <? 30000)%N; simpl;
             [destruct (body r) as [v | why]; simpl;
                [destruct (get_property v "detail") as [e | | dv]; simpl |] |] |];
          try destruct (_ && _); discriminate.
    + destruct (after <? 30000)%N; discriminate.
    + discriminate.
  - intros (after & r & -> & Hafter & Hok & Hbody).
    apply N.ltb_lt in Hafter. simpl. rewrite Hafter. simpl. rewrite Hok. simpl.
    rewrite Hbody. reflexivity.
Qed.

(** X3: once a response with a status in 200-299 has arrived before the
    deadline, the timer is cleared and the controller left alone; the
    caller gets the reading of the body, fulfilled with what it parses to
    or rejected with the parser's [SyntaxError], when the body arrives,
    however late. *)
Theorem success_body_has_no_deadline msg hist after r d
    (Hresponse : (after < ChatAPIClient.TIMEOUT_MS)%N)
    (Hstatus : ok r = true)
    (Hbody : body_after r = Some d) :
  ChatAPIClient.sendMessage msg hist (Responds after r) =
  {| ChatAPIClient.request :=
       {| ChatRequest.message := msg; ChatRequest.chat_history := hist |};
     ChatAPIClient.cancelled := false;
     ChatAPIClient.cleared_at := after;
     ChatAPIClient.promise :=
       Some ((after + d)%N,
             match body r with
             | Parses v => Fulfilled v
             | ParseFails why => Rejected (ErrorObject "SyntaxError" why)
             end) |}.
Proof.
  apply N.ltb_lt in Hresponse.
  unfold ChatAPIClient.sendMessage, ChatAPIClient.await_with_signal, fetch, Response_json.
  rewrite Hresponse. simpl. rewrite Hstatus. simpl. rewrite Hbody.
  destruct (body r); reflexivity.
Qed.

Lemma success_body_has_no_deadline_witness :
  ChatAPIClient.promise
    (ChatAPIClient.sendMessage "hello" (Some [])
       (Responds 29000 {| status := 200%N; body_after := Some 60000%N;
                          body := ParseFails "Unexpected end of JSON input" |})) =
  Some (89000%N, Rejected (ErrorObject "SyntaxError" "Unexpected end of JSON input")).
Proof.
  exact (f_equal ChatAPIClient.promise
           (success_body_has_no_deadline "hello" (Some []) 29000
              {| status := 200%N; body_after := Some 60000%N;
                 body := ParseFails "Unexpected end of JSON input" |} 60000
              eq_refl eq_refl eq_refl)).
Defined.

(** ** The calls that arm no timer *)

(** X4: [clearCache] fulfils as soon as a response arrives, whatever its
    status and without reading its body; the only rejection it can give is
    the [TypeError] of a [fetch] that failed. *)
Theorem clearCache_ignores_status net :
  (∀ after r, net = Responds after r →
     chatAPI.promise (chatAPI.clearCache net) = Some (after, Fulfilled ())) ∧
  (∀ t e, chatAPI.promise (chatAPI.clearCache net) = Some (t, Rejected e) →
     ∃ why, net = NetworkError t why ∧ e = ErrorObject "TypeError" why).
Proof.
  split.
  - intros after r ->. reflexivity.
  - intros t e. destruct net as [after r | after why | ]; simpl; intros; simplify_eq.
    by exists why.
Qed.

(** X5: [ingest], [clearCache] and [healthCheck] wait for the network as
    long as it takes.  When the response is not there at 30000 ms, where
    [sendMessage] gives up at that instant, none of the three settles before
    the network does, which is at 30000 ms or later, and none settles at
    all if it never answers. *)
Theorem only_sendMessage_has_a_deadline sources msg hist net
    (Hlate : match fetch net with
             | Some (t, _) => (30000 ≤ t)%N
             | None => True
             end) :
  let not_before_network {A : Type} (p : Pending A) :=
    ∀ t s, p = Some (t, s) →
      ∃ t0 s0, fetch net = Some (t0, s0) ∧ (30000 ≤ t0)%N ∧ (t0 ≤ t)%N in
  ChatAPIClient.promise (ChatAPIClient.sendMessage msg hist net)
    = Some (30000%N, Rejected (new_Error "Request timed out. Please try again.")) ∧
  not_before_network (chatAPI.promise (chatAPI.ingest sources net)) ∧
  not_before_network (chatAPI.promise (chatAPI.clearCache net)) ∧
  not_before_network (chatAPI.promise (chatAPI.healthCheck net)) ∧
  (fetch net = None →
     chatAPI.promise (chatAPI.ingest sources net) = None ∧
     chatAPI.promise (chatAPI.clearCache net) = None ∧
     chatAPI.promise (chatAPI.healthCheck net) = None).
Proof.
  intros not_before_network. subst not_before_network. simpl.
  split_and!.
  - unfold ChatAPIClient.sendMessage, ChatAPIClient.await_with_signal.
    change ChatAPIClient.TIMEOUT_MS with 30000%N.
    destruct (fetch net) as [[t s] |]; [| reflexivity].
    apply N.ltb_ge in Hlate. rewrite Hlate. reflexivity.
  - intros t s.
    destruct (fetch net) as [[t0 [r | e]] |]; [| | discriminate].
    + destruct (negb (ok r)).
      * intros; simplify_eq. exists t, (Fulfilled r). split_and!; [done | lia | lia].
      * unfold Response_json. destruct (body_after r); intros; simplify_eq.
        exists t0, (Fulfilled r). split_and!; [done | lia | lia].
    + intros; simplify_eq. exists t, (Rejected e). split_and!; [done | lia | lia].
  - intros t s.
    destruct (fetch net) as [[t0 [r | e]] |]; intros; simplify_eq.
    + exists t, (Fulfilled r). split_and!; [done | lia | lia].
    + exists t, (Rejected e). split_and!; [done | lia | lia].
  - intros t s.
    destruct (fetch net) as [[t0 [r | e]] |]; [| | discriminate].
    + destruct (negb (ok r)).
      * intros; simplify_eq. exists t, (Fulfilled r). split_and!; [done | lia | lia].
      * unfold Response_json. destruct (body_after r); intros; simplify_eq.
        exists t0, (Fulfilled r). split_and!; [done | lia | lia].
    + intros; simplify_eq. exists t, (Rejected e). split_and!; [done | lia | lia].
  - intros Hnone. rewrite Hnone. done.
Qed.

Lemma only_sendMessage_has_a_deadline_witness :
  ChatAPIClient.promise (ChatAPIClient.sendMessage "hello" (Some []) silent_backend)
    = Some (30000%N, Rejected (new_Error "Request timed out. Please try again.")) ∧
  chatAPI.promise (chatAPI.ingest (Some ["jira"]) silent_backend) = None.
Proof.
  pose proof (only_sendMessage_has_a_deadline (Some ["jira"]) "hello" (Some [])
                silent_backend I) as (Hsend & _ & _ & _ & Hnone).
  exact (conj Hsend (proj1 (Hnone eq_refl))).
Defined.

(** X6: when the status is not in 200-299, [ingest] and [healthCheck]
    reject as soon as the response arrives, with the status alone in the
    message: the body is not waited for and nothing of it is reported. *)
Theorem failure_status_without_body sources after r (Hstatus : ok r = false) :
  chatAPI.promise (chatAPI.ingest sources (Responds after r)) =
    Some (after, Rejected (new_Error ("Ingest error: " +:+ Number_toString (status r)))) ∧
  chatAPI.promise (chatAPI.healthCheck (Responds after r)) =
    Some (after, Rejected (new_Error ("Health check failed: " +:+ Number_toString (status r)))) ∧
  (∀ r', status r' = status r →
     chatAPI.promise (chatAPI.ingest sources (Responds after r')) =
       chatAPI.promise (chatAPI.ingest sources (Responds after r)) ∧
     chatAPI.promise (chatAPI.healthCheck (Responds after r')) =
       chatAPI.promise (chatAPI.healthCheck (Responds after r))).
Proof.
  assert (∀ r', status r' = status r → ok r' = false) as Hsame.
  { intros r' Heq. unfold ok in *. rewrite Heq. exact Hstatus. }
  unfold chatAPI.ingest, chatAPI.healthCheck; simpl. rewrite Hstatus. simpl.
  split_and!; try reflexivity.
  intros r' Heq. rewrite (Hsame r' Heq), Heq. done.
Qed.

Lemma failure_status_without_body_witness :
  chatAPI.promise (chatAPI.ingest None stalled_error_body) =
    Some (1000%N, Rejected (new_Error "Ingest error: 500")).
Proof.
  exact (proj1 (failure_status_without_body None 1000
     {| status := 500%N; body_after := None;
        body := Parses (JObject [("detail", JString "index unavailable")]) |} eq_refl)).
Defined.

(** ** The hook, used without the interface's discipline *)

Lemma run_app st evs1 evs2 : run st (evs1 ++ evs2) = run (run st evs1) evs2.
Proof. apply foldl_app. Qed.

Lemma run_NewChat_isLoading rest : ∀ st,
  forallb is_NewChat rest = true → isLoading (run st rest) = isLoading st.
Proof.
  induction rest as [| ev rest IH]; intros st Hrest; simpl in *; [reflexivity |].
  apply andb_prop in Hrest as [Hev Hrest].
  destruct ev; try discriminate Hev.
  rewrite (IH _ Hrest). reflexivity.
Qed.

(** X7: [isLoading] tells which kind of event of [sendMessage] came last,
    not whether a request is in flight: after any events, it is true if the
    last one other than [clearChat] was a call and false if it was a
    settlement.  With two calls overlapping, the first settlement turns it
    off while the second request is still pending. *)
Theorem isLoading_follows_last_event st evs ev rest
    (Hev : of_sendMessage ev = true)
    (Hrest : forallb is_NewChat rest = true) :
  isLoading (run st (evs ++ ev :: rest)) =
  match ev with
  | Submit _ _ _ _ => true
  | _ => false
  end.
Proof.
  rewrite run_app. simpl. rewrite (run_NewChat_isLoading rest _ Hrest).
  destruct ev as [captured content uuid now | settlement uuid now | ].
  - reflexivity.
  - rewrite apply_event_Settle. reflexivity.
  - discriminate Hev.
Qed.

Lemma isLoading_follows_last_event_witness :
  isLoading (run initial [Submit [] "a" "id-1" 0;
                          Submit [] "b" "id-2" 1;
                          Settle (Fulfilled hi_payload) "id-3" 4]) = false.
Proof.
  exact (isLoading_follows_last_event initial
           [Submit [] "a" "id-1" 0; Submit [] "b" "id-2" 1]
           (Settle (Fulfilled hi_payload) "id-3" 4) [] eq_refl eq_refl).
Defined.

(** X8: [clearChat] does not cancel a pending request.  Called between a
    call of [sendMessage] and its settlement, it leaves the loading flag
    on, and the reply, when it comes, is the only message of the new log: a
    transcript that starts with an assistant message. *)
Theorem reply_lands_in_cleared_log st captured content uuid1 now1 settlement uuid2 now2 :
  let pending := run st [Submit captured content uuid1 now1; NewChat] in
  let settled := apply_event pending (Settle settlement uuid2 now2) in
  messages pending = [] ∧
  isLoading pending = true ∧
  messages settled = [reply settlement uuid2 now2] ∧
  Message.role (reply settlement uuid2 now2) = assistant ∧
  isLoading settled = false.
Proof.
  intros pending settled. subst settled. rewrite apply_event_Settle.
  split_and!; try reflexivity. destruct settlement; reflexivity.
Qed.

(** ** What a log is made of, and how it shows *)

Lemma log_messages evs : ∀ st,
  (∀ m, m ∈ messages st →
     (∃ content uuid now, m = userMessage content uuid now) ∨
     (∃ settlement uuid now, m = reply settlement uuid now)) →
  ∀ m, m ∈ messages (run st evs) →
     (∃ content uuid now, m = userMessage content uuid now) ∨
     (∃ settlement uuid now, m = reply settlement uuid now).
Proof.
  induction evs as [| ev evs IH]; intros st Hst; simpl; [exact Hst |].
  apply IH. intros m.
  destruct ev as [captured content uuid now | settlement uuid now | ].
  - rewrite apply_event_Submit. simpl.
    rewrite elem_of_app, list_elem_of_singleton. intros [Hm | ->]; [by apply Hst |].
    left. by exists content, uuid, now.
  - rewrite apply_event_Settle. simpl.
    rewrite elem_of_app, list_elem_of_singleton. intros [Hm | ->]; [by apply Hst |].
    right. by exists settlement, uuid, now.
  - rewrite apply_event_NewChat. simpl. intros Hm. by apply elem_of_nil in Hm.
Qed.

(** X9: in the log of any session, a message is rendered with a row of
    pills only if it is the reply to a fulfilled request whose payload has
    at least one source; the row then has one pill per source, in order,
    and the ["cached"] badge exactly when the payload says so.  A cached
    reply without sources shows no badge; user messages and failure
    messages never show the row. *)
Theorem sources_row_only_for_sourced_replies evs m pills badge
    (Hm : m ∈ messages (run initial evs))
    (Hrow : chat_message.sources_row (chat_message.ChatMessage m) = Some (pills, badge)) :
  ∃ result uuid,
    m = assistantMessage result uuid ∧
    ChatResponse.sources result ≠ [] ∧
    pills = map (fun src => (Source.source src, Source.id src)) (ChatResponse.sources result) ∧
    badge = ChatResponse.cached result.
Proof.
  destruct (log_messages evs initial) with (m := m) as
    [(content & uuid & now & ->) | ([result | err] & uuid & now & ->)]; try done.
  - intros m' Hm'. by apply elem_of_nil in Hm'.
  - exists result, uuid.
    unfold chat_message.ChatMessage in Hrow. simpl in Hrow.
    destruct (ChatResponse.sources result) as [| first rest] eqn:Hsources;
      [discriminate |].
    simplify_eq. split_and!; try done. by destruct (ChatResponse.cached result).
Qed.

Lemma sources_row_only_for_sourced_replies_witness :
  ∃ result uuid,
    assistantMessage
      {| ChatResponse.response := "KAN-1 is due tomorrow";
         ChatResponse.sources :=
           [ {| Source.id := "KAN-1"; Source.source := "jira"; Source.title := "Fix login" |} ];
         ChatResponse.cached := true;
         ChatResponse.timestamp := "2024-01-01T00:00:00Z" |} "id-2"
      = assistantMessage result uuid ∧
    ChatResponse.sources result ≠ [] ∧
    [("jira", "KAN-1")]
      = map (fun src => (Source.source src, Source.id src)) (ChatResponse.sources result) ∧
    true = ChatResponse.cached result.
Proof.
  apply (sources_row_only_for_sourced_replies
           [Submit [] "What are my urgent tasks?" "id-1" 0;
            Settle (Fulfilled
              {| ChatResponse.response := "KAN-1 is due tomorrow";
                 ChatResponse.sources :=
                   [ {| Source.id := "KAN-1"; Source.source := "jira";
                        Source.title := "Fix login" |} ];
                 ChatResponse.cached := true;
                 ChatResponse.timestamp := "2024-01-01T00:00:00Z" |}) "id-2" 3]).
  - apply list_elem_of_lookup. exists 1. reflexivity.
  - reflexivity.
Defined.

(** ** The error banner *)

Lemma single_flight_step_banner s ev s' :
  single_flight_invariant s →
  (∀ m, error (cells s) = Some m →
     isLoading (cells s) = false ∧
     ∃ uuid now, last (messages (cells s)) = Some (failureMessage m uuid now)) →
  single_flight_step s ev = Some s' →
  ∀ m, error (cells s') = Some m →
     isLoading (cells s') = false ∧
     ∃ uuid now, last (messages (cells s')) = Some (failureMessage m uuid now).
Proof.
  intros (_ & Hle & Herr) Hbanner Hstep m.
  destruct s as [st n]; simpl in *.
  destruct ev as [captured content uuid now | settlement uuid now | ];
    destruct n as [| n]; simplify_eq/=; try discriminate.
  assert (n = 0) as -> by lia.
  rewrite apply_event_Settle; simpl.
  destruct settlement as [result | err].
  - rewrite (Herr eq_refl). discriminate.
  - intros [= <-]. split; [reflexivity |].
    exists uuid, now. apply last_snoc.
Qed.

Lemma single_flight_run_banner evs : ∀ s s',
  single_flight_invariant s →
  (∀ m, error (cells s) = Some m →
     isLoading (cells s) = false ∧
     ∃ uuid now, last (messages (cells s)) = Some (failureMessage m uuid now)) →
  single_flight_run s evs = Some s' →
  ∀ m, error (cells s') = Some m →
     isLoading (cells s') = false ∧
     ∃ uuid now, last (messages (cells s')) = Some (failureMessage m uuid now).
Proof.
  induction evs as [| ev evs IH]; intros s s' Hinv Hbanner Hrun; simpl in Hrun.
  - by simplify_eq.
  - destruct (single_flight_step s ev) as [s1 |] eqn:Hstep; [| discriminate].
    apply (IH s1 s'); [| | exact Hrun].
    + exact (single_flight_step_invariant s ev s1 Hinv Hstep).
    + exact (single_flight_step_banner s ev s1 Hinv Hbanner Hstep).
Qed.

(** X10: in a session kept to one request at a time, whenever [Chat] shows
    the error banner nothing is loading, the banner's text is not empty, and
    the last message of the transcript is the failure message made from the
    very same text. *)
Theorem banner_matches_last_message evs s m
    (Hrun : single_flight_run opened evs = Some s)
    (Hbanner : chat.error_banner (chat.Chat (cells s)) = Some m) :
  m ≠ "" ∧
  isLoading (cells s) = false ∧
  ∃ uuid now,
    last (messages (cells s)) = Some (failureMessage m uuid now) ∧
    Message.content (failureMessage m uuid now) = "Something went wrong: " +:+ m.
Proof.
  unfold chat.Chat in Hbanner; simpl in Hbanner.
  destruct (error (cells s)) as [e |] eqn:Herror; [| discriminate].
  destruct (String.eqb e "") eqn:Hempty; [discriminate |].
  injection Hbanner as ->.
  destruct (single_flight_run_banner evs opened s opened_invariant) with (m := m)
    as (Hload & uuid & now & Hlast); try done.
  split_and!; [| exact Hload |].
  - intros ->. discriminate Hempty.
  - by exists uuid, now.
Qed.

Lemma banner_matches_last_message_witness :
  let s := {| cells := run initial [Submit [] "hello" "id-1" 0;
                                    Settle (Rejected (new_Error "Failed to fetch")) "id-2" 5];
              in_flight := 0 |} in
  "Failed to fetch" ≠ "" ∧
  isLoading (cells s) = false ∧
  ∃ uuid now,
    last (messages (cells s)) = Some (failureMessage "Failed to fetch" uuid now) ∧
    Message.content (failureMessage "Failed to fetch" uuid now)
      = "Something went wrong: " +:+ "Failed to fetch".
Proof.
  exact (banner_matches_last_message
           [Submit [] "hello" "id-1" 0;
            Settle (Rejected (new_Error "Failed to fetch")) "id-2" 5]
           _ "Failed to fetch" eq_refl eq_refl).
Defined.

(** ** The interface *)

Lemma examplePrompts_not_blank index content :
  chat_welcome.onClick index = Some content → chat_input.blank content = false.
Proof.
  unfold chat_welcome.onClick.
  do 6 (destruct index as [| index]; [intros [= <-]; reflexivity |]).
  discriminate.
Qed.

Lemma turn_snoc (log : list Message) m :
  (∀ i m', log !! i = Some m' → Message.role m' = turn i) →
  Message.role m = turn (length log) →
  ∀ i m', (log ++ [m]) !! i = Some m' → Message.role m' = turn i.
Proof.
  intros Hlog Hm i m' Hi.
  apply lookup_snoc_Some in Hi as [[_ Hi] | [-> <-]]; [exact (Hlog i m' Hi) | exact Hm].
Qed.

Lemma performs_Submit s ev captured content uuid now :
  ui_invariant s →
  performs s ev = Some (Submit captured content uuid now) →
  isLoading (hook s) = false ∧
  captured = messages (hook s) ∧
  chat_input.blank content = false.
Proof.
  intros (Hodd & _) Hev.
  destruct ev as [value | uuid' now' | key shiftKey uuid' now' | index uuid' now' |
                  | settlement uuid' now']; simpl in Hev; try discriminate.
  - unfold chat_input.handleSubmit in Hev.
    destruct (chat_input.blank (draft s)) eqn:Hblank; simpl in Hev; [discriminate |].
    destruct (isLoading (hook s)); simpl in Hev; [discriminate |].
    by simplify_eq.
  - unfold chat_input.handleKeyDown, chat_input.handleSubmit in Hev.
    destruct (String.eqb key "Enter" && negb shiftKey); simpl in Hev; [| discriminate].
    destruct (chat_input.blank (draft s)) eqn:Hblank; simpl in Hev; [discriminate |].
    destruct (isLoading (hook s)); simpl in Hev; [discriminate |].
    by simplify_eq.
  - destruct (messages (hook s)) as [| m log] eqn:Hlog; simpl in Hev; [| discriminate].
    destruct (chat_welcome.onClick index) as [prompt |] eqn:Hprompt; [| discriminate].
    injection Hev as <- <- <- <-.
    split_and!; [rewrite Hodd; rewrite ?Hlog; reflexivity | reflexivity |].
    exact (examplePrompts_not_blank _ _ Hprompt).
  - destruct (messages (hook s)); simpl in Hev; [discriminate |].
    destruct (isLoading (hook s)); discriminate.
  - destruct (0 <? awaiting s)%nat; discriminate.
Qed.

Lemma performs_Settle s ev settlement uuid now :
  ui_invariant s →
  performs s ev = Some (Settle settlement uuid now) →
  isLoading (hook s) = true ∧ awaiting s = 1.
Proof.
  intros (_ & Hawait & _) Hev.
  destruct ev as [value | uuid' now' | key shiftKey uuid' now' | index uuid' now' |
                  | settlement' uuid' now']; simpl in Hev; try discriminate.
  - destruct (chat_input.onSend _); discriminate.
  - destruct (chat_input.onSend _); discriminate.
  - destruct (messages (hook s)); simpl in Hev; [| discriminate].
    destruct (chat_welcome.onClick index); discriminate.
  - destruct (messages (hook s)); simpl in Hev; [discriminate |].
    destruct (isLoading (hook s)); discriminate.
  - destruct (0 <? awaiting s)%nat eqn:Hpos; [| discriminate].
    apply Nat.ltb_lt in Hpos.
    destruct (isLoading (hook s)); [done | lia].
Qed.

Lemma performs_NewChat s ev :
  performs s ev = Some NewChat → isLoading (hook s) = false.
Proof.
  intros Hev.
  destruct ev as [value | uuid' now' | key shiftKey uuid' now' | index uuid' now' |
                  | settlement' uuid' now']; simpl in Hev; try discriminate.
  - destruct (chat_input.onSend _); discriminate.
  - destruct (chat_input.onSend _); discriminate.
  - destruct (messages (hook s)); simpl in Hev; [| discriminate].
    destruct (chat_welcome.onClick index); discriminate.
  - destruct (messages (hook s)); simpl in Hev; [discriminate |].
    by destruct (isLoading (hook s)).
  - destruct (0 <? awaiting s)%nat; discriminate.
Qed.

Lemma ui_step_invariant s ev :
  ui_invariant s →
  ui_invariant (ui_step s ev) ∧
  match performs s ev with
  | Some call =>
      single_flight_step {| cells := hook s; in_flight := awaiting s |} call =
      Some {| cells := hook (ui_step s ev); in_flight := awaiting (ui_step s ev) |}
  | None => hook (ui_step s ev) = hook s ∧ awaiting (ui_step s ev) = awaiting s
  end.
Proof.
  intros Hinv. pose proof Hinv as (Hodd & Hawait & Hturn & Hblank).
  unfold ui_step, ui_invariant; simpl.
  destruct (performs s ev) as [[captured content uuid now | settlement uuid now | ] |] eqn:Hev.
  - destruct (performs_Submit _ _ _ _ _ _ Hinv Hev) as (Hload & -> & Hcontent).
    rewrite Hload in Hawait, Hodd. rewrite Hawait. simpl.
    rewrite length_app, Nat.add_1_r, Nat.odd_succ, <- Nat.negb_odd, <- Hodd.
    split_and!; try reflexivity.
    + apply turn_snoc; [exact Hturn |].
      unfold turn. by rewrite <- Nat.negb_odd, <- Hodd.
    + intros m. rewrite elem_of_app, list_elem_of_singleton.
      intros [Hm | ->]; [by apply Hblank | intros _; exact Hcontent].
  - destruct (performs_Settle _ _ _ _ _ Hinv Hev) as (Hload & Hone).
    rewrite Hload in Hodd. rewrite Hone. rewrite apply_event_Settle. simpl.
    rewrite length_app, Nat.add_1_r, Nat.odd_succ, <- Nat.negb_odd, <- Hodd.
    split_and!; try reflexivity.
    + apply turn_snoc; [exact Hturn |].
      unfold turn. rewrite <- Nat.negb_odd, <- Hodd. by destruct settlement.
    + intros m. rewrite elem_of_app, list_elem_of_singleton.
      intros [Hm | ->]; [by apply Hblank | by destruct settlement].
    + by rewrite apply_event_Settle.
  - pose proof (performs_NewChat _ _ Hev) as Hload.
    rewrite Hload in Hawait. rewrite Hawait. simpl. rewrite ?Hload.
    split_and!; try reflexivity.
    + intros i m Hm. by rewrite lookup_nil in Hm.
    + intros m Hm. by apply elem_of_nil in Hm.
  - done.
Qed.

Lemma ui_run_invariant evs : ∀ s,
  ui_invariant s →
  ui_invariant (ui_run s evs) ∧
  single_flight_run {| cells := hook s; in_flight := awaiting s |} (ui_calls s evs) =
  Some {| cells := hook (ui_run s evs); in_flight := awaiting (ui_run s evs) |}.
Proof.
  induction evs as [| ev evs IH]; intros s Hinv; simpl; [done |].
  destruct (ui_step_invariant s ev Hinv) as [Hnext Hcall].
  destruct (IH _ Hnext) as [Hlast Hrun].
  split; [exact Hlast |].
  destruct (performs s ev) as [call |].
  - simpl. rewrite Hcall. exact Hrun.
  - destruct Hcall as [Hhook Hawait]. rewrite <- Hhook, <- Hawait. exact Hrun.
Qed.

Lemma launched_invariant : ui_invariant launched.
Proof.
  unfold ui_invariant; simpl. split_and!; try reflexivity.
  - intros i m Hm. by rewrite lookup_nil in Hm.
  - intros m Hm. by apply elem_of_nil in Hm.
Qed.

(** X11: the interface keeps the hook to one request at a time.  Whatever
    is typed, clicked or pressed, and whenever the requests settle, the
    calls it makes into the hook form a session with one request at a time;
    at most one request is in flight, and [isLoading] is true exactly when
    one is.  The prompts of the welcome screen check nothing themselves:
    they are on screen only while the log is empty, and the New Chat button
    is disabled while a request is pending. *)
Theorem interface_keeps_one_request evs :
  let s := ui_run launched evs in
  single_flight_run opened (ui_calls launched evs) =
    Some {| cells := hook s; in_flight := awaiting s |} ∧
  (awaiting s ≤ 1)%nat ∧
  (isLoading (hook s) = true ↔ awaiting s = 1).
Proof.
  intros s.
  destruct (ui_run_invariant evs launched launched_invariant)
    as [(_ & Hawait & _) Hrun].
  fold s in Hawait, Hrun.
  split_and!; [exact Hrun | |]; rewrite Hawait; destruct (isLoading (hook s));
    [lia | lia | done | split; discriminate].
Qed.

(** X12: through the interface the transcript alternates: the message at
    an even index is the user's and the one at an odd index the
    assistant's, so every reply follows the message it answers; a request
    is pending exactly when the log has an odd number of messages; and the
    welcome screen is shown exactly when the log is empty. *)
Theorem interface_transcript_alternates evs :
  let st := hook (ui_run launched evs) in
  (∀ i m, messages st !! i = Some m → Message.role m = turn i) ∧
  isLoading st = Nat.odd (length (messages st)) ∧
  (chat.main (chat.Chat st) = chat.ChatWelcome ↔ messages st = []).
Proof.
  intros st.
  destruct (ui_run_invariant evs launched launched_invariant)
    as [(Hodd & _ & Hturn & _) _].
  split_and!; [exact Hturn | exact Hodd |].
  unfold chat.Chat; simpl. destruct (messages st); simpl; split; done.
Qed.

(** X13: through the interface no user message is blank: every message of
    role user in the log has something other than white space in its
    content.  The form sends its input as typed, untrimmed, and only when
    it is not blank and not disabled; Shift+Enter and other keys send
    nothing. *)
Theorem interface_sends_no_blank_message evs :
  (∀ m, m ∈ messages (hook (ui_run launched evs)) →
        Message.role m = user → chat_input.blank (Message.content m) = false) ∧
  (∀ input disabled,
     chat_input.onSend (chat_input.handleSubmit input disabled) =
       if chat_input.blank input || disabled then None else Some input) ∧
  (∀ key shiftKey input disabled,
     chat_input.onSend (chat_input.handleKeyDown key shiftKey input disabled) =
       if String.eqb key "Enter" && negb shiftKey
       then chat_input.onSend (chat_input.handleSubmit input disabled)
       else None).
Proof.
  destruct (ui_run_invariant evs launched launched_invariant)
    as [(_ & _ & _ & Hblank) _].
  split_and!; [exact Hblank | |].
  - intros input disabled. unfold chat_input.handleSubmit.
    by destruct (chat_input.blank input || disabled).
  - intros key shiftKey input disabled. unfold chat_input.handleKeyDown.
    by destruct (String.eqb key "Enter" && negb shiftKey).
Qed.
